(** * The NNC ahead-of-time model compiler driver

    A shallow embedding of [binaries/aot_model_compiler.cc]: the command-line
    flags, the string splitter, the input-dimension parser, the compile
    spec, the kernel id, the default output names, the backend
    preprocessing hook and [main], followed by the properties of the driver
    that are stated about it. *)

From Stdlib Require Import ZArith NArith List String Ascii Bool Lia.
From Stdlib Require Import Decimal DecimalString.
From Stdlib Require DecimalPos.
Import ListNotations.

Local Open Scope string_scope.
Local Open Scope list_scope.

(** ** Command-line flags

    The [C10_DEFINE_string] globals, as one record holding their values
    after [c10::ParseCommandLineFlags]. Every flag defaults to the empty
    string. *)

Record Flags : Type := mkFlags {
  FLAGS_model : string;
  FLAGS_model_name : string;
  FLAGS_model_version : string;
  FLAGS_input_dims : string;
  FLAGS_output_asm : string;
  FLAGS_output_model : string
}.

Definition default_flags : Flags := mkFlags "" "" "" "" "" "".

(** ** Exceptions

    What the driver itself can throw, and a catch-all for what an external
    library call throws. *)

Inductive exn : Type :=
| EnforceError (msg : string)            (* CAFFE_ENFORCE / CAFFE_ENFORCE_GE *)
| CheckError (msg : string)              (* TORCH_CHECK *)
| InvalidArgument (what : string)        (* std::invalid_argument *)
| OutOfRange (what : string)             (* std::out_of_range *)
| ExternalError (what : string).         (* raised inside a library call *)

Definition result (A : Type) : Type := (exn + A)%type.

Definition Ok {A : Type} (a : A) : result A := inr a.
Definition Err {A : Type} (e : exn) : result A := inl e.

Definition rbind {A B : Type} (r : result A) (k : A -> result B) : result B :=
  match r with
  | inl e => inl e
  | inr a => k a
  end.

(** ** std::string helpers *)

Definition string_empty (s : string) : bool :=
  match s with
  | EmptyString => true
  | String _ _ => false
  end.

(** [std::string::size], a [size_t]. *)
Definition string_size (s : string) : N := N.of_nat (String.length s).

(** [std::string::npos]. *)
Definition npos : N := (2 ^ 64 - 1)%N.

(** The index of the first occurrence of [c] in [s], if there is one. *)
Fixpoint first_index (s : string) (c : ascii) : option nat :=
  match s with
  | EmptyString => None
  | String a rest =>
      if Ascii.eqb a c then Some 0
      else option_map S (first_index rest c)
  end.

(** [s.find(c)]: the index of the first occurrence of [c], or [npos]. *)
Definition string_find (s : string) (c : ascii) : N :=
  match first_index s c with
  | Some i => N.of_nat i
  | None => npos
  end.

Fixpoint string_take (n : nat) (s : string) : string :=
  match n, s with
  | S n', String a rest => String a (string_take n' rest)
  | _, _ => EmptyString
  end.

Fixpoint string_drop (n : nat) (s : string) : string :=
  match n, s with
  | S n', String _ rest => string_drop n' rest
  | _, _ => s
  end.

(** [s.substr(pos, count)]: throws [std::out_of_range] when [pos > size()],
    otherwise the characters [pos, min(pos + count, size()))]. *)
Definition string_substr (s : string) (pos count : N) : result string :=
  if N.ltb (string_size s) pos then Err (OutOfRange "basic_string::substr")
  else Ok (string_take (N.to_nat (N.min count (string_size s - pos)))
                       (string_drop (N.to_nat pos) s)).

(** ** split

    [std::getline(ss, item, separator)] on the characters still unread in
    the stream: the item is everything before the first separator, the
    separator itself is consumed and dropped. The call fails, and the
    [while] ends, exactly when nothing is left to read. *)

Fixpoint getline (ss : string) (separator : ascii) : string * string :=
  match ss with
  | EmptyString => (EmptyString, EmptyString)
  | String c rest =>
      if Ascii.eqb c separator then (EmptyString, rest)
      else let '(item, rest') := getline rest separator in
           (String c item, rest')
  end.

(** The [while (getline(...))] loop. Each successful [getline] consumes at
    least one character, so [fuel] bounds the number of iterations. *)
Fixpoint split_loop (fuel : nat) (separator : ascii) (ignore_empty : bool)
         (ss : string) (pieces : list string) : list string :=
  match fuel with
  | O => pieces
  | S fuel' =>
      match ss with
      | EmptyString => pieces
      | String _ _ =>
          let '(item, rest) := getline ss separator in
          split_loop fuel' separator ignore_empty rest
            (if negb ignore_empty || negb (string_empty item)
             then pieces ++ [item]
             else pieces)
      end
  end.

Definition split (separator : ascii) (string : string) (ignore_empty : bool)
  : list String.string :=
  split_loop (String.length string) separator ignore_empty string [].

(** ** c10::stoi *)

Definition INT_MIN : Z := (- 2 ^ 31)%Z.
Definition INT_MAX : Z := (2 ^ 31 - 1)%Z.

(** [isspace] in the C locale. *)
Definition isspace (c : ascii) : bool :=
  let n := nat_of_ascii c in
  Nat.eqb n 32 || (Nat.leb 9 n && Nat.leb n 13).

Definition digit_of (c : ascii) : option Z :=
  let n := nat_of_ascii c in
  if Nat.leb 48 n && Nat.leb n 57 then Some (Z.of_nat (n - 48)) else None.

Fixpoint skip_spaces (s : string) : string :=
  match s with
  | String c rest => if isspace c then skip_spaces rest else s
  | EmptyString => s
  end.

(** The run of decimal digits at the front of [s], accumulated onto [acc];
    [seen] records whether a digit was consumed. *)
Fixpoint read_digits (s : string) (acc : Z) (seen : bool) : option Z :=
  match s with
  | String c rest =>
      match digit_of c with
      | Some d => read_digits rest (10 * acc + d)%Z true
      | None => if seen then Some acc else None
      end
  | EmptyString => if seen then Some acc else None
  end.

(** Modelled from the spec: [c10::stoi] is declared in
    c10/util/string_utils.h and only called here; the dimension entries are "comma-separated integers" and "unparsable
    dimensions" are fatal. It is [std::stoi] in base 10: leading white
    space is skipped, an optional sign is read, then the longest run of
    decimal digits; characters after the run are ignored. No digit at all
    is [std::invalid_argument], a value that does not fit an [int] is
    [std::out_of_range]. *)
Definition stoi (str : string) : result Z :=
  let s := skip_spaces str in
  let '(negative, body) :=
    match s with
    | String "-" rest => (true, rest)
    | String "+" rest => (false, rest)
    | _ => (false, s)
    end in
  match read_digits body 0%Z false with
  | None => Err (InvalidArgument "stoi")
  | Some v =>
      let v := if negative then (- v)%Z else v in
      if (INT_MIN <=? v)%Z && (v <=? INT_MAX)%Z then Ok v
      else Err (OutOfRange "stoi")
  end.

(** ** parse_input_shapes *)

(** The inner [for]: one [c10::stoi] per piece, stopping at the first
    exception. *)
Fixpoint parse_dims (input_dims_str : list string) (input_dims : list Z)
  : result (list Z) :=
  match input_dims_str with
  | [] => Ok input_dims
  | s :: more =>
      rbind (stoi s) (fun v => parse_dims more (input_dims ++ [v]))
  end.

(** The outer [for] over the semicolon-separated items. *)
Fixpoint parse_items (input_dims_list : list string) (inputs : list (list Z))
  : result (list (list Z)) :=
  match input_dims_list with
  | [] => Ok inputs
  | input_dims_item :: more =>
      let input_dims_str := split "," input_dims_item true in
      rbind (parse_dims input_dims_str [])
            (fun input_dims => parse_items more (inputs ++ [input_dims]))
  end.

(** The condition of [CAFFE_ENFORCE_GE(FLAGS_input_dims.size(), 0, ...)]. *)
Definition input_dims_specified (fl : Flags) : bool :=
  N.leb 0 (string_size (FLAGS_input_dims fl)).

Definition parse_input_shapes (fl : Flags) : result (list (list Z)) :=
  if input_dims_specified fl then
    let input_dims_list := split ";" (FLAGS_input_dims fl) true in
    parse_items input_dims_list []
  else Err (EnforceError "Input dims must be specified.").

(** ** Compile spec

    [c10::IValue], as far as the driver builds and reads it, and
    [c10::Dict] with string keys: insertion order is kept, [insert] leaves
    an existing key alone, [at] throws on a missing key. *)

#[local] Set Warnings "-register-all".

Inductive IValue : Type :=
| IVString (s : string)
| IVIntList (l : list Z)
| IVGenericDict (d : list (string * IValue))
| IVTuple (l : list IValue).

Definition Dict : Type := list (string * IValue).

Fixpoint dict_find (d : Dict) (key : string) : option IValue :=
  match d with
  | [] => None
  | (k, v) :: more => if String.eqb k key then Some v else dict_find more key
  end.

Definition dict_insert (d : Dict) (key : string) (value : IValue) : Dict :=
  match dict_find d key with
  | Some _ => d
  | None => d ++ [(key, value)]
  end.

Definition dict_at (d : Dict) (key : string) : result IValue :=
  match dict_find d key with
  | Some v => Ok v
  | None => Err (OutOfRange "Argument passed to at() was not in the map.")
  end.

Definition dict_keys (d : Dict) : list string := map fst d.

Definition toGenericDict (v : IValue) : result Dict :=
  match v with
  | IVGenericDict d => Ok d
  | _ => Err (CheckError "Expected GenericDict")
  end.

Definition toIntVector (v : IValue) : result (list Z) :=
  match v with
  | IVIntList l => Ok l
  | _ => Err (CheckError "Expected IntList")
  end.

(** The decimal rendering of a count inside a [TORCH_CHECK] message. *)
Definition count_to_string (n : nat) : string :=
  NilZero.string_of_uint (Nat.to_uint n).

Definition wrong_input_shapes (n : nat) : exn :=
  CheckError ("Wrong # of input shapes: " ++ count_to_string n)%string.

Definition create_compile_spec (fl : Flags) : result Dict :=
  let compile_spec : Dict := [] in
  let method_spec : Dict := [] in
  rbind (parse_input_shapes fl) (fun input_shapes =>
    if Nat.eqb (List.length input_shapes) 1 then
      let method_spec :=
        dict_insert method_spec "sizes" (IVIntList (nth 0 input_shapes [])) in
      Ok (dict_insert compile_spec "forward" (IVGenericDict method_spec))
    else Err (wrong_input_shapes (List.length input_shapes))).

Definition get_input_sizes_for_method (method_compile_spec : Dict)
           (method_name : string) : result (list Z) :=
  rbind (dict_at method_compile_spec method_name) (fun method_spec =>
  rbind (toGenericDict method_spec) (fun d =>
  rbind (dict_at d "sizes") toIntVector)).

(** ** Kernel id and default output names *)

Definition get_nnc_kernel_id (fl : Flags) (method_name : string) : string :=
  let version_token := "VERTOKEN" in
  FLAGS_model_name fl ++ ":" ++ FLAGS_model_version fl ++ ":" ++ method_name
    ++ ":" ++ version_token.

(** [FLAGS_model.substr(0, FLAGS_model.find('.'))]. *)
Definition model_stem (fl : Flags) : result string :=
  string_substr (FLAGS_model fl) 0 (string_find (FLAGS_model fl) ".").

(** The file name [write_output_assembly] opens. *)
Definition output_asm_name (fl : Flags) : result string :=
  let output_asm_name := FLAGS_output_asm fl in
  if string_empty output_asm_name then
    rbind (model_stem fl) (fun stem => Ok (stem ++ ".compiled.ll")%string)
  else Ok output_asm_name.

(** The file name [main] passes to [_save_for_mobile]. *)
Definition output_model_name (fl : Flags) : result string :=
  let output_model_name := FLAGS_output_model fl in
  if string_empty output_model_name then
    rbind (model_stem fl) (fun stem => Ok (stem ++ ".compiled.pt")%string)
  else Ok output_model_name.

(** ** The driver's view of the libraries

    Modules, graphs, tensors and native code are opaque to the driver: it
    only passes them from one library call to the next. *)

Definition nl : string := String (ascii_of_nat 10) EmptyString.

Definition UsageMessage : string :=
  "Run NNC AOT compiler for pytorch model. Example usage:" ++ nl ++
  "build/bin/aot_model_compiler" ++
  " --model=<model file>" ++
  " --model_name=<model name>" ++
  " --model_version=<model version>" ++
  " --input_dims='1,3,224,224'" ++
  " [--output_asm=<llvm assembly output file path>]" ++
  " [--output_model=<output model file path>]".

Section Driver.

Context {Module Graph Tensor Code : Type}.

(** Modelled from the spec: the invocation descriptor ([nnc::Function],
    declared in torch/csrc/jit/mobile/nnc/context.h, which the driver
    only uses) has a kernel id, the expected input sizes and a
    reference to the native entry point. *)
Record Function : Type := mkFunction {
  nnc_kernel_id : string;
  input_sizes : list Z;
  entry : Code
}.

Definition set_nnc_kernel_id (func : Function) (id : string) : Function :=
  mkFunction id (input_sizes func) (entry func).

(** Modelled from the spec: the compilation unit
    ([nnc::CompilationUnit], same header) is an ordered collection of
    invocation descriptors. *)
Definition CompilationUnit : Type := list Function.

Definition register_function (cu : CompilationUnit) (func : Function)
  : CompilationUnit := cu ++ [func].

(** The library calls the driver makes, indexed by what they return.
    Passes work on the graph in place and their results are not used. *)
Inductive ext : Type -> Type :=
| JitLoad (path : string) : ext Module
| ModuleEval (m : Module) : ext unit
| ModuleClone (m : Module) : ext Module
| FreezeModule (m : Module) : ext Module
| GetMethodGraph (m : Module) (method_name : string) : ext Graph
| GraphCopy (g : Graph) : ext Graph
| AtRand (sizes : list Z) : ext Tensor
| RemoveTensorMutation (g : Graph) : ext unit
| EliminateDeadCode (g : Graph) : ext unit
| RemoveUnusedSelfArgument (g : Graph) : ext Graph
| AnnotateInputShapes (g : Graph) (example_inputs : list (option Tensor))
  : ext unit
| GraphDump (g : Graph) : ext unit
| Cout (text : string) : ext unit
| Cerr (text : string) : ext unit
| OptimizeFrozenGraph (g : Graph) (optimize_numerics : bool) : ext unit
| PropagateShapesOnGraph (g : Graph) : ext unit
| PeepholeOptimize (g : Graph) (disable_shape_peepholes : bool) : ext unit
| ConstantPropagation (g : Graph) : ext unit
| AotCompile (method_name : string) (g : Graph) (sizes : list Z)
  : ext (Function * string)
| OfstreamWrite (file_name : string) (text : string) : ext unit
| CuSerialize (cu : CompilationUnit) : ext IValue
| PackageBackendModule (backend_name : string) (orig_module : Module)
    (method_compile_spec : Dict) (processed : IValue) : ext Module
| SaveForMobile (m : Module) (file_name : string) : ext unit.

(** Driver code: it returns, throws, or makes a library call and goes on
    with what the call returned. *)
Inductive Prog (A : Type) : Type :=
| Ret (a : A)
| Throw (e : exn)
| Call (X : Type) (c : ext X) (k : X -> Prog A).

Arguments Ret {A} a.
Arguments Throw {A} e.
Arguments Call {A X} c k.

Fixpoint bind {A B : Type} (p : Prog A) (f : A -> Prog B) : Prog B :=
  match p with
  | Ret a => f a
  | Throw e => Throw e
  | Call c k => Call c (fun x => bind (k x) f)
  end.

Definition call {X : Type} (c : ext X) : Prog X := Call c Ret.

Definition lift {A : Type} (r : result A) : Prog A :=
  match r with
  | inl e => Throw e
  | inr a => Ret a
  end.

Notation "x <- p ;; q" := (bind p (fun x => q))
  (at level 61, p at next level, right associativity).
Notation "p ;; q" := (bind p (fun _ => q))
  (at level 61, right associativity).

(** *** write_output_assembly *)

Definition write_output_assembly (fl : Flags) (asm_code : string)
  : Prog unit :=
  output_asm_name <- lift (output_asm_name fl) ;;
  call (OfstreamWrite output_asm_name asm_code).

(** *** preprocess *)

Definition preprocess (fl : Flags) (mod_ : Module)
           (method_compile_spec : Dict) : Prog IValue :=
  let method_name := "forward" in
  method_graph <- call (GetMethodGraph mod_ method_name) ;;
  graph <- call (GraphCopy method_graph) ;;
  sizes <- lift (get_input_sizes_for_method method_compile_spec method_name) ;;
  compiled <- call (AotCompile method_name graph sizes) ;;
  let '(func, asmCode) := compiled in
  write_output_assembly fl asmCode ;;
  let func := set_nnc_kernel_id func (get_nnc_kernel_id fl method_name) in
  let cu : CompilationUnit := [] in
  let cu := register_function cu func in
  call (CuSerialize cu).

(** [static auto reg = backend_preprocess_register("nnc", preprocess)]. *)
Definition registered_preprocess (fl : Flags) (backend_name : string)
  : option (Module -> Dict -> Prog IValue) :=
  if String.eqb backend_name "nnc" then Some (preprocess fl) else None.

(** Modelled from the spec: [detail::codegen_backend_module]
    (torch/csrc/jit/backends/backend_detail.h) is only called here. The
    backend module packager is given the frozen module, the
    compile spec and the serialized compilation unit, which the
    preprocessing hook registered under the backend name produces. *)
Definition codegen_backend_module (fl : Flags) (backend_name : string)
           (orig_module : Module) (method_compile_spec : Dict)
  : Prog Module :=
  match registered_preprocess fl backend_name with
  | None => Throw (CheckError "Preprocessing function is not registered.")
  | Some hook =>
      processed <- hook orig_module method_compile_spec ;;
      call (PackageBackendModule backend_name orig_module
                                 method_compile_spec processed)
  end.

(** *** main

    [parsed] is what [c10::ParseCommandLineFlags] made of the command
    line: [None] when it returns false. *)
Definition main (parsed : option Flags) : Prog Z :=
  match parsed with
  | None =>
      call (Cerr ("Failed to parse command line flags!" ++ nl)%string) ;;
      call (Cout (UsageMessage ++ nl)%string) ;;
      Ret 1%Z
  | Some fl =>
      if string_empty (FLAGS_model fl)
      then Throw (EnforceError UsageMessage)
      else
        output_model_name <- lift (output_model_name fl) ;;
        m <- call (JitLoad (FLAGS_model fl)) ;;
        call (ModuleEval m) ;;
        m_clone <- call (ModuleClone m) ;;
        frozen_m <- call (FreezeModule m_clone) ;;
        graph <- call (GetMethodGraph frozen_m "forward") ;;
        example <- call (AtRand [1; 3; 224; 224]%Z) ;;
        let example_inputs := [Some example] in
        call (RemoveTensorMutation graph) ;;
        call (EliminateDeadCode graph) ;;
        graph <- call (RemoveUnusedSelfArgument graph) ;;
        call (AnnotateInputShapes graph example_inputs) ;;
        call (GraphDump graph) ;;
        call (Cout ("XXX " ++ nl ++ nl ++ nl ++ nl)%string) ;;
        call (OptimizeFrozenGraph graph true) ;;
        call (PropagateShapesOnGraph graph) ;;
        call (PeepholeOptimize graph false) ;;
        call (ConstantPropagation graph) ;;
        call (PropagateShapesOnGraph graph) ;;
        call (PeepholeOptimize graph false) ;;
        call (ConstantPropagation graph) ;;
        call (GraphDump graph) ;;
        compile_spec <- lift (create_compile_spec fl) ;;
        compiled_module <-
          codegen_backend_module fl "nnc" frozen_m compile_spec ;;
        call (SaveForMobile compiled_module output_model_name) ;;
        call (Cout ("The compiled model was saved to "
                      ++ output_model_name ++ nl)%string) ;;
        Ret 0%Z
  end.

(** *** Running the driver

    An environment decides what each library call returns ([None]: the
    call raised) and how it changes the world [W]. A run yields the
    outcome, the library calls made in order, and the final world. *)

Context {W : Type}.

Definition Env : Type := forall X : Type, ext X -> W -> option X * W.

Inductive event : Type :=
| Returned (X : Type) (c : ext X) (x : X)
| Raised (X : Type) (c : ext X).

Arguments Returned {X} c x.
Arguments Raised {X} c.

Fixpoint run (env : Env) {A : Type} (p : Prog A) (w : W)
  : result A * list event * W :=
  match p with
  | Ret a => (Ok a, [], w)
  | Throw e => (Err e, [], w)
  | Call c k =>
      match env _ c w with
      | (Some x, w') =>
          let '(r, tr, w'') := run env (k x) w' in
          (r, Returned c x :: tr, w'')
      | (None, w') => (Err (ExternalError "library call"), [Raised c], w')
      end
  end.

Definition returned (ev : event) : bool :=
  match ev with
  | Returned _ _ => true
  | Raised _ => false
  end.

(** The graph passes of [main], by name. *)
Inductive pass : Type :=
| RemoveTensorMutationPass
| EliminateDeadCodePass
| RemoveUnusedSelfArgumentPass
| AnnotateInputShapesPass
| OptimizeFrozenGraphPass
| PropagateShapesPass
| PeepholePass
| ConstantPropagationPass.

Definition pass_of {X : Type} (c : ext X) : option pass :=
  match c with
  | RemoveTensorMutation _ => Some RemoveTensorMutationPass
  | EliminateDeadCode _ => Some EliminateDeadCodePass
  | RemoveUnusedSelfArgument _ => Some RemoveUnusedSelfArgumentPass
  | AnnotateInputShapes _ _ => Some AnnotateInputShapesPass
  | OptimizeFrozenGraph _ _ => Some OptimizeFrozenGraphPass
  | PropagateShapesOnGraph _ => Some PropagateShapesPass
  | PeepholeOptimize _ _ => Some PeepholePass
  | ConstantPropagation _ => Some ConstantPropagationPass
  | _ => None
  end.

Definition event_pass (ev : event) : option pass :=
  match ev with
  | Returned c _ => pass_of c
  | Raised c => pass_of c
  end.

Fixpoint passes_run (tr : list event) : list pass :=
  match tr with
  | [] => []
  | ev :: more =>
      match event_pass ev with
      | Some p => p :: passes_run more
      | None => passes_run more
      end
  end.

(** The passes of the optimizer rounds: shape propagation, peephole
    rewriting and constant propagation. *)
Definition is_round_pass (p : pass) : bool :=
  match p with
  | PropagateShapesPass | PeepholePass | ConstantPropagationPass => true
  | _ => false
  end.


(** What a run handed to the shape annotator. *)
Fixpoint annotator_inputs (tr : list event) : list (list (option Tensor)) :=
  match tr with
  | [] => []
  | Returned (AnnotateInputShapes _ ex) _ :: more
  | Raised (AnnotateInputShapes _ ex) :: more => ex :: annotator_inputs more
  | _ :: more => annotator_inputs more
  end.

(** The tensors [at::rand] returned during a run, with the sizes asked
    for. *)
Fixpoint rand_tensors (tr : list event) : list (list Z * Tensor) :=
  match tr with
  | [] => []
  | Returned (AtRand sizes) t :: more => (sizes, t) :: rand_tensors more
  | _ :: more => rand_tensors more
  end.

(** The compilation units a run serialized, the files it wrote and the
    models it saved. *)
Fixpoint serialized_units (tr : list event) : list CompilationUnit :=
  match tr with
  | [] => []
  | Returned (CuSerialize cu) _ :: more
  | Raised (CuSerialize cu) :: more => cu :: serialized_units more
  | _ :: more => serialized_units more
  end.

Fixpoint files_written (tr : list event) : list (string * string) :=
  match tr with
  | [] => []
  | Returned (OfstreamWrite name text) _ :: more
  | Raised (OfstreamWrite name text) :: more =>
      (name, text) :: files_written more
  | _ :: more => files_written more
  end.

Fixpoint models_saved (tr : list event) : list string :=
  match tr with
  | [] => []
  | Returned (SaveForMobile _ name) _ :: more
  | Raised (SaveForMobile _ name) :: more => name :: models_saved more
  | _ :: more => models_saved more
  end.

End Driver.

Arguments Function : clear implicits.
Arguments CompilationUnit : clear implicits.
Arguments ext : clear implicits.
Arguments Prog : clear implicits.
Arguments event : clear implicits.
Arguments Env : clear implicits.
Arguments Ret {Module Graph Tensor Code A} a.
Arguments Throw {Module Graph Tensor Code A} e.
Arguments Call {Module Graph Tensor Code A X} c k.
Arguments Returned {Module Graph Tensor Code X} c x.
Arguments Raised {Module Graph Tensor Code X} c.

(** ** A small world to run the driver in

    Modules, graphs and native code carry no data, a tensor is its sizes,
    and the world is the shape annotation of the inputs of the one graph
    there is. Only the shape annotator changes the world. *)

Definition Shape : Type := list Z.

(** Modelled from the spec: [tensorexpr::annotateInputShapes]
    (torch/csrc/jit/tensorexpr/graph_opt.h) is only called by the driver.
    For each graph input, in positional order, it attaches the
    corresponding static shape, and fails when the number of shape entries
    does not match the number of graph inputs. An absent entry leaves its
    input as it is. *)
Fixpoint attach_shapes (inputs : list (option Shape))
         (shapes : list (option Shape)) : list (option Shape) :=
  match inputs, shapes with
  | _ :: inputs', Some s :: shapes' => Some s :: attach_shapes inputs' shapes'
  | i :: inputs', None :: shapes' => i :: attach_shapes inputs' shapes'
  | _, _ => inputs
  end.

(** The annotator proper: [None] when the counts differ. *)
Definition annotateInputShapes (inputs : list (option Shape))
           (shapes : list (option Shape)) : option (list (option Shape)) :=
  if Nat.eqb (List.length inputs) (List.length shapes)
  then Some (attach_shapes inputs shapes)
  else None.

Definition World : Type := list (option Shape).

Definition small_env : Env unit unit Shape unit World :=
  fun X c =>
    match c in ext _ _ _ _ T return World -> option T * World with
    | JitLoad _ => fun w => (Some tt, w)
    | ModuleEval _ => fun w => (Some tt, w)
    | ModuleClone _ => fun w => (Some tt, w)
    | FreezeModule _ => fun w => (Some tt, w)
    | GetMethodGraph _ _ => fun w => (Some tt, w)
    | GraphCopy _ => fun w => (Some tt, w)
    | AtRand sizes => fun w => (Some sizes, w)
    | RemoveTensorMutation _ => fun w => (Some tt, w)
    | EliminateDeadCode _ => fun w => (Some tt, w)
    | RemoveUnusedSelfArgument _ => fun w => (Some tt, w)
    | AnnotateInputShapes _ example_inputs => fun w =>
        match annotateInputShapes w example_inputs with
        | Some w' => (Some tt, w')
        | None => (None, w)
        end
    | GraphDump _ => fun w => (Some tt, w)
    | Cout _ => fun w => (Some tt, w)
    | Cerr _ => fun w => (Some tt, w)
    | OptimizeFrozenGraph _ _ => fun w => (Some tt, w)
    | PropagateShapesOnGraph _ => fun w => (Some tt, w)
    | PeepholeOptimize _ _ => fun w => (Some tt, w)
    | ConstantPropagation _ => fun w => (Some tt, w)
    | AotCompile _ _ sizes => fun w =>
        (Some (mkFunction "" sizes tt, "; forward"), w)
    | OfstreamWrite _ _ => fun w => (Some tt, w)
    | CuSerialize cu => fun w =>
        (Some (IVTuple (map (fun f => IVTuple [IVString (nnc_kernel_id f);
                                               IVIntList (input_sizes f)])
                            cu)), w)
    | PackageBackendModule _ _ _ _ => fun w => (Some tt, w)
    | SaveForMobile _ _ => fun w => (Some tt, w)
    end.

(** The world of a graph with one tensor input of yet unknown shape. *)
Definition one_input : World := [None].

Definition with_input_dims (s : string) : Flags :=
  mkFlags "model.pt" "resnet" "1.0" s "" "".

(** ** Well-formed input-dimension strings

    A dimension is a decimal numeral with at least one digit, possibly
    negative, whose value fits an [int]; a group is a non-empty sequence of
    dimensions separated by commas; the specification is a sequence of
    groups separated by semicolons. *)

Fixpoint join (separator : string) (pieces : list string) : string :=
  match pieces with
  | [] => EmptyString
  | [p] => p
  | p :: more => (p ++ separator ++ join separator more)%string
  end.






(** Does [c] occur in [s]? *)
Fixpoint occurs (c : ascii) (s : string) : bool :=
  match s with
  | EmptyString => false
  | String a rest => Ascii.eqb a c || occurs c rest
  end.

(** The passes of the two optimizer rounds, and all the passes of [main],
    in the order of the calls. *)
Definition round_passes : list pass :=
  [PropagateShapesPass; PeepholePass; ConstantPropagationPass;
   PropagateShapesPass; PeepholePass; ConstantPropagationPass].

Definition main_passes : list pass :=
  [RemoveTensorMutationPass; EliminateDeadCodePass;
   RemoveUnusedSelfArgumentPass; AnnotateInputShapesPass;
   OptimizeFrozenGraphPass] ++ round_passes.

(** The round passes as the specification words them: a second round
    only when the first one changed a shape or a value. *)
Definition spec_round_passes (first_round_changed : bool) : list pass :=
  [PropagateShapesPass; PeepholePass; ConstantPropagationPass]
    ++ (if first_round_changed
        then [PropagateShapesPass; PeepholePass; ConstantPropagationPass]
        else []).


(** What one turn of the loop adds to [pieces]. *)
Definition kept (ignore_empty : bool) (item : string) : list string :=
  if negb ignore_empty || negb (string_empty item) then [item] else [].

(** The small world with a backend module packager that raises. *)
Definition failing_packager_env : Env unit unit Shape unit World :=
  fun X c =>
    match c in ext _ _ _ _ T return World -> option T * World with
    | PackageBackendModule _ _ _ _ => fun w => (None, w)
    | c' => small_env _ c'
    end.

(** ** Further views of strings and of runs *)

(** Is [c] the last character of [s]? *)
Fixpoint ends_with (c : ascii) (s : string) : bool :=
  match s with
  | EmptyString => false
  | String a EmptyString => Ascii.eqb a c
  | String _ rest => ends_with c rest
  end.

(** The string of [n] times the character [c]. *)
Fixpoint replicate (n : nat) (c : ascii) : string :=
  match n with
  | O => EmptyString
  | S n' => String c (replicate n' c)
  end.

Definition in_int_range (v : Z) : bool :=
  (INT_MIN <=? v)%Z && (v <=? INT_MAX)%Z.

(** What a run leaves on disk: assembly listings and saved models. *)
Inductive artifact : Type :=
| AsmFile (file_name : string)
| ModelFile (file_name : string).

Section TraceViews.

Context {Module Graph Tensor Code : Type}.

(** The model paths handed to [torch::jit::load]. *)
Fixpoint models_loaded (tr : list (event Module Graph Tensor Code))
  : list string :=
  match tr with
  | [] => []
  | Returned (JitLoad path) _ :: more
  | Raised (JitLoad path) :: more => path :: models_loaded more
  | _ :: more => models_loaded more
  end.

(** The module life cycle: what was loaded, put in evaluation mode,
    cloned (original, clone) and frozen (argument, result). *)
Fixpoint loaded_modules (tr : list (event Module Graph Tensor Code))
  : list Module :=
  match tr with
  | [] => []
  | Returned (JitLoad _) m :: more => m :: loaded_modules more
  | _ :: more => loaded_modules more
  end.

Fixpoint evaled_modules (tr : list (event Module Graph Tensor Code))
  : list Module :=
  match tr with
  | [] => []
  | Returned (ModuleEval m) _ :: more => m :: evaled_modules more
  | _ :: more => evaled_modules more
  end.

Fixpoint module_clones (tr : list (event Module Graph Tensor Code))
  : list (Module * Module) :=
  match tr with
  | [] => []
  | Returned (ModuleClone m) c :: more => (m, c) :: module_clones more
  | _ :: more => module_clones more
  end.

Fixpoint frozen_modules (tr : list (event Module Graph Tensor Code))
  : list (Module * Module) :=
  match tr with
  | [] => []
  | Returned (FreezeModule m) f :: more => (m, f) :: frozen_modules more
  | _ :: more => frozen_modules more
  end.

(** The graphs got from a method of a module, and the copies made. *)
Fixpoint method_graphs (tr : list (event Module Graph Tensor Code))
  : list (Module * string * Graph) :=
  match tr with
  | [] => []
  | Returned (GetMethodGraph m name) g :: more =>
      (m, name, g) :: method_graphs more
  | _ :: more => method_graphs more
  end.

Fixpoint graph_copies (tr : list (event Module Graph Tensor Code))
  : list (Graph * Graph) :=
  match tr with
  | [] => []
  | Returned (GraphCopy g) copy :: more => (g, copy) :: graph_copies more
  | _ :: more => graph_copies more
  end.

(** What [removeUnusedSelfArgument] was given and returned. *)
Fixpoint self_removed (tr : list (event Module Graph Tensor Code))
  : list (Graph * Graph) :=
  match tr with
  | [] => []
  | Returned (RemoveUnusedSelfArgument g) g' :: more =>
      (g, g') :: self_removed more
  | _ :: more => self_removed more
  end.

(** The graph each pass was called on. *)
Definition pass_graph {X : Type} (c : ext Module Graph Tensor Code X)
  : option (pass * Graph) :=
  match c with
  | RemoveTensorMutation g => Some (RemoveTensorMutationPass, g)
  | EliminateDeadCode g => Some (EliminateDeadCodePass, g)
  | RemoveUnusedSelfArgument g => Some (RemoveUnusedSelfArgumentPass, g)
  | AnnotateInputShapes g _ => Some (AnnotateInputShapesPass, g)
  | OptimizeFrozenGraph g _ => Some (OptimizeFrozenGraphPass, g)
  | PropagateShapesOnGraph g => Some (PropagateShapesPass, g)
  | PeepholeOptimize g _ => Some (PeepholePass, g)
  | ConstantPropagation g => Some (ConstantPropagationPass, g)
  | _ => None
  end.

Fixpoint pass_graphs (tr : list (event Module Graph Tensor Code))
  : list (pass * Graph) :=
  match tr with
  | [] => []
  | ev :: more =>
      match match ev with
            | Returned c _ => pass_graph c
            | Raised c => pass_graph c
            end with
      | Some pg => pg :: pass_graphs more
      | None => pass_graphs more
      end
  end.

(** The arguments of the calls to [aot_compile], and what it returned. *)
Fixpoint compile_calls (tr : list (event Module Graph Tensor Code))
  : list (string * Graph * list Z) :=
  match tr with
  | [] => []
  | Returned (AotCompile name g sizes) _ :: more
  | Raised (AotCompile name g sizes) :: more =>
      (name, g, sizes) :: compile_calls more
  | _ :: more => compile_calls more
  end.

Fixpoint compiled (tr : list (event Module Graph Tensor Code))
  : list (Function Code * string) :=
  match tr with
  | [] => []
  | Returned (AotCompile _ _ _) out :: more => out :: compiled more
  | _ :: more => compiled more
  end.

(** The serialized compilation units that came back, and what the backend
    module packager was given: backend name, module, compile spec and
    processed value. *)
Fixpoint serialized_values (tr : list (event Module Graph Tensor Code))
  : list (CompilationUnit Code * IValue) :=
  match tr with
  | [] => []
  | Returned (CuSerialize cu) v :: more => (cu, v) :: serialized_values more
  | _ :: more => serialized_values more
  end.

Fixpoint packaged (tr : list (event Module Graph Tensor Code))
  : list (string * Module * Dict * IValue) :=
  match tr with
  | [] => []
  | Returned (PackageBackendModule name m spec v) _ :: more
  | Raised (PackageBackendModule name m spec v) :: more =>
      (name, m, spec, v) :: packaged more
  | _ :: more => packaged more
  end.

(** The modules that came back from the packager, and the modules saved
    with their file names. *)
Fixpoint packaged_modules (tr : list (event Module Graph Tensor Code))
  : list Module :=
  match tr with
  | [] => []
  | Returned (PackageBackendModule _ _ _ _) m :: more =>
      m :: packaged_modules more
  | _ :: more => packaged_modules more
  end.

Fixpoint saved_modules (tr : list (event Module Graph Tensor Code))
  : list (Module * string) :=
  match tr with
  | [] => []
  | Returned (SaveForMobile m name) _ :: more
  | Raised (SaveForMobile m name) :: more => (m, name) :: saved_modules more
  | _ :: more => saved_modules more
  end.

(** The files a run opened for writing, in order. *)
Fixpoint artifacts (tr : list (event Module Graph Tensor Code))
  : list artifact :=
  match tr with
  | [] => []
  | Returned (OfstreamWrite name _) _ :: more
  | Raised (OfstreamWrite name _) :: more => AsmFile name :: artifacts more
  | Returned (SaveForMobile _ name) _ :: more
  | Raised (SaveForMobile _ name) :: more => ModelFile name :: artifacts more
  | _ :: more => artifacts more
  end.

End TraceViews.

(** * Properties *)

(** ** Strings *)

Lemma append_empty_r (s : string) : (s ++ "")%string = s.
Proof. induction s as [|c s IH]; simpl; [reflexivity | now rewrite IH]. Qed.

Lemma append_assoc (a b c : string) :
  ((a ++ b) ++ c)%string = (a ++ (b ++ c))%string.
Proof. induction a as [|x a IH]; simpl; [reflexivity | now rewrite IH]. Qed.

Lemma length_append (a b : string) :
  String.length (a ++ b) = String.length a + String.length b.
Proof. induction a as [|x a IH]; simpl; [reflexivity | now rewrite IH]. Qed.


Lemma string_empty_false (s : string) : string_empty s = false <-> s <> "".
Proof. destruct s; simpl; split; congruence. Qed.

(** ** getline *)

Lemma getline_stops_at_separator (sep : ascii) (a b : string) :
  occurs sep a = false ->
  getline (a ++ String sep b) sep = (a, b).
Proof.
  induction a as [|x a IH]; simpl; intros H.
  - now rewrite Ascii.eqb_refl.
  - apply orb_false_iff in H as [Hx Ha].
    rewrite Hx, (IH Ha). reflexivity.
Qed.

Lemma getline_reads_to_end (sep : ascii) (a : string) :
  occurs sep a = false ->
  getline a sep = (a, "").
Proof.
  induction a as [|x a IH]; simpl; intros H; [reflexivity |].
  apply orb_false_iff in H as [Hx Ha].
  rewrite Hx, (IH Ha). reflexivity.
Qed.

(** What [getline] returns splits the stream at its first separator. *)
Lemma getline_decompose (sep : ascii) (s item rest : string) :
  getline s sep = (item, rest) ->
  occurs sep item = false /\
  (s = (item ++ String sep rest)%string \/ (s = item /\ rest = "")).
Proof.
  revert item rest.
  induction s as [|x s IH]; simpl; intros item rest H.
  - inversion H; subst. split; [reflexivity | right; split; reflexivity].
  - destruct (Ascii.eqb x sep) eqn:Hx.
    + inversion H; subst. apply Ascii.eqb_eq in Hx. subst x.
      split; [reflexivity | left; reflexivity].
    + destruct (getline s sep) as [item' rest'] eqn:Hg.
      inversion H; subst.
      destruct (IH _ _ eq_refl) as [Hocc Hs].
      split; [simpl; now rewrite Hx |].
      destruct Hs as [Hs | [Hs Hr]].
      * left. simpl. now f_equal.
      * right. split; [now f_equal | assumption].
Qed.

Lemma getline_consumes (sep : ascii) (c : ascii) (s item rest : string) :
  getline (String c s) sep = (item, rest) ->
  String.length rest <= String.length s.
Proof.
  intros H. apply getline_decompose in H as [_ [H | [H Hr]]].
  - assert (L : String.length (String c s)
                = String.length (item ++ String sep rest)) by now rewrite H.
    rewrite length_append in L. simpl in L. lia.
  - subst rest. simpl. lia.
Qed.

(** ** split *)

Lemma split_loop_pieces (fuel : nat) (sep : ascii) (ig : bool)
      (ss : string) (pieces : list string) :
  split_loop fuel sep ig ss pieces = pieces ++ split_loop fuel sep ig ss [].
Proof.
  revert ss pieces.
  induction fuel as [|fuel IH]; intros ss pieces; simpl.
  - now rewrite app_nil_r.
  - destruct ss as [|c s]; [now rewrite app_nil_r |].
    destruct (getline (String c s) sep) as [item rest].
    destruct (negb ig || negb (string_empty item)); simpl.
    + rewrite IH, (IH rest [item]). now rewrite <- app_assoc.
    + apply IH.
Qed.

(** The loop never runs out of fuel: any fuel from the length of the
    stream on gives the same pieces. *)
Lemma split_loop_enough_fuel (n m : nat) (sep : ascii) (ig : bool)
      (ss : string) (pieces : list string) :
  String.length ss <= n ->
  String.length ss <= m ->
  split_loop n sep ig ss pieces = split_loop m sep ig ss pieces.
Proof.
  revert m ss pieces.
  induction n as [|n IH]; intros m ss pieces Hn Hm.
  - destruct ss; simpl in Hn; [| lia]. now destruct m.
  - destruct ss as [|c s]; [now destruct m |].
    destruct m as [|m]; [simpl in Hm; lia |].
    cbn [split_loop].
    destruct (getline (String c s) sep) as [item rest] eqn:Hg.
    pose proof (getline_consumes _ _ _ _ _ Hg) as Hrest.
    simpl in Hn, Hm. apply IH; lia.
Qed.

(** One turn of the loop, on a stream that is not at its end. *)
Lemma split_step (sep : ascii) (ig : bool) (c : ascii) (s : string) :
  split sep (String c s) ig
  = kept ig (fst (getline (String c s) sep))
    ++ split sep (snd (getline (String c s) sep)) ig.
Proof.
  destruct (getline (String c s) sep) as [item rest] eqn:Hg.
  pose proof (getline_consumes _ _ _ _ _ Hg) as Hrest.
  cbn [fst snd]. unfold split.
  change (String.length (String c s)) with (S (String.length s)).
  cbn [split_loop]. rewrite Hg.
  rewrite split_loop_pieces.
  rewrite (split_loop_enough_fuel _ (String.length rest))
    by (assumption || apply Nat.le_refl).
  unfold kept. now destruct (negb ig || negb (string_empty item)).
Qed.

Lemma split_empty (sep : ascii) (ig : bool) : split sep "" ig = [].
Proof. reflexivity. Qed.

Lemma split_one_piece (sep : ascii) (a : string) :
  occurs sep a = false ->
  split sep a true = kept true a.
Proof.
  intros H. destruct a as [|c a]; [reflexivity |].
  rewrite split_step, (getline_reads_to_end _ _ H). simpl fst. simpl snd.
  rewrite split_empty. now rewrite app_nil_r.
Qed.

(** Splitting distributes over a separator. *)
Lemma split_at_separator (sep : ascii) (a b : string) :
  split sep (a ++ String sep b) true = split sep a true ++ split sep b true.
Proof.
  remember (String.length a) as n eqn:Hn.
  revert a Hn.
  induction n as [n IH] using lt_wf_ind. intros a Hn.
  destruct a as [|c a].
  - simpl append. rewrite split_step. simpl. now rewrite Ascii.eqb_refl.
  - destruct (getline (String c a) sep) as [item rest] eqn:Hg.
    pose proof (getline_consumes _ _ _ _ _ Hg) as Hrest.
    destruct (getline_decompose _ _ _ _ Hg) as [Hocc [Ha | [Ha Hr]]].
    + rewrite (split_step sep true c a), Hg. simpl fst. simpl snd.
      rewrite Ha at 1. rewrite append_assoc. simpl append.
      destruct item as [|i item'].
      * simpl append. simpl in Ha. inversion Ha; subst c a.
        rewrite split_step. simpl getline. rewrite Ascii.eqb_refl.
        simpl fst. simpl snd. simpl kept. simpl app.
        apply (IH (String.length rest)); [simpl in Hn; lia | reflexivity].
      * change (String i item' ++ String sep (rest ++ String sep b))%string
          with (String i (item' ++ String sep (rest ++ String sep b)))%string.
        rewrite split_step.
        change (String i (item' ++ String sep (rest ++ String sep b)))%string
          with (String i item' ++ String sep (rest ++ String sep b))%string.
        rewrite (getline_stops_at_separator _ _ _ Hocc).
        simpl fst. simpl snd.
        rewrite (IH (String.length rest)); [| simpl in Hn; lia | reflexivity].
        now rewrite app_assoc.
    + subst rest. rewrite Ha in *.
      rewrite (split_one_piece _ _ Hocc).
      destruct item as [|i item']; [discriminate |].
      change (String i item' ++ String sep b)%string
        with (String i (item' ++ String sep b))%string.
      rewrite split_step.
      change (String i (item' ++ String sep b))%string
        with (String i item' ++ String sep b)%string.
      rewrite (getline_stops_at_separator _ _ _ Hocc). reflexivity.
Qed.




(** ** stoi on decimal numerals *)








(** ** parse_input_shapes on well-formed strings *)







Lemma input_dims_always_specified (fl : Flags) :
  input_dims_specified fl = true.
Proof. unfold input_dims_specified. apply N.leb_le, N.le_0_l. Qed.




(** ** Repeated, leading and trailing separators *)


Lemma split_leading_separator (sep : ascii) (s : string) :
  split sep (String sep s) true = split sep s true.
Proof. exact (split_at_separator sep "" s). Qed.










(** ** create_compile_spec *)

(** C5. Building the compile spec succeeds exactly when the parsed
    input-dimension specification has one shape group; any other count
    raises the error that reports the number of input shapes; on success
    the spec has the single key "forward", mapped to a dictionary with the
    single key "sizes", mapped to that group. *)
Theorem create_compile_spec_one_group
        (fl : Flags) (input_shapes : list (list Z)) :
  parse_input_shapes fl = Ok input_shapes ->
  ((exists spec, create_compile_spec fl = Ok spec)
   <-> List.length input_shapes = 1)
  /\ (List.length input_shapes <> 1 ->
      create_compile_spec fl
      = Err (CheckError ("Wrong # of input shapes: "
                           ++ count_to_string (List.length input_shapes))))
  /\ (forall spec, create_compile_spec fl = Ok spec ->
      exists group,
        input_shapes = [group]
        /\ spec = [("forward", IVGenericDict [("sizes", IVIntList group)])]
        /\ dict_keys spec = ["forward"]
        /\ get_input_sizes_for_method spec "forward" = Ok group).
Proof.
  intros Hparse. unfold create_compile_spec. rewrite Hparse. cbn [rbind Ok].
  destruct input_shapes as [|g [|g' more]]; cbn [List.length Nat.eqb].
  - split; [| split].
    + split; [intros [spec H]; discriminate | discriminate].
    + reflexivity.
    + intros spec H. discriminate.
  - split; [| split].
    + split; [reflexivity | intros _; eexists; reflexivity].
    + congruence.
    + intros spec H. injection H as <-. exists g. repeat split.
  - split; [| split].
    + split; [intros [spec H]; discriminate | discriminate].
    + reflexivity.
    + intros spec H. discriminate.
Qed.

Lemma create_compile_spec_one_group_witness :
  (exists spec, create_compile_spec (with_input_dims "1,3,224,224") = Ok spec)
  <-> List.length [[1; 3; 224; 224]%Z] = 1.
Proof.
  apply (create_compile_spec_one_group (with_input_dims "1,3,224,224")
                                       [[1; 3; 224; 224]%Z]).
  reflexivity.
Defined.

(** ** Default output names *)




Lemma first_index_absent (c : ascii) (s : string) :
  occurs c s = false -> first_index s c = None.
Proof.
  induction s as [|x s IH]; cbn [occurs first_index]; intros H;
    [reflexivity |].
  apply orb_false_iff in H as [Hx Hs]. now rewrite Hx, (IH Hs).
Qed.

Lemma string_take_all (s : string) : string_take (String.length s) s = s.
Proof.
  induction s as [|x s IH]; cbn [String.length string_take];
    [reflexivity | now rewrite IH].
Qed.

(** Without a '.', the whole model path is kept; a [std::string] is
    shorter than [npos]. *)
Lemma model_stem_without_dot (fl : Flags) :
  occurs "." (FLAGS_model fl) = false ->
  (string_size (FLAGS_model fl) <= npos)%N ->
  model_stem fl = Ok (FLAGS_model fl).
Proof.
  intros Hdot Hsize. unfold model_stem, string_find, string_substr.
  rewrite (first_index_absent _ _ Hdot).
  replace (N.ltb _ 0) with false by (symmetry; apply N.ltb_ge, N.le_0_l).
  rewrite N.sub_0_r, N.min_r by exact Hsize.
  unfold string_size. rewrite Nat2N.id. cbn [N.to_nat string_drop].
  now rewrite string_take_all.
Qed.

Lemma model_stem_total (fl : Flags) : exists stem, model_stem fl = Ok stem.
Proof.
  unfold model_stem, string_substr.
  replace (N.ltb _ 0) with false by (symmetry; apply N.ltb_ge, N.le_0_l).
  eexists; reflexivity.
Qed.

Lemma output_model_name_total (fl : Flags) :
  exists name, output_model_name fl = Ok name.
Proof.
  unfold output_model_name.
  destruct (string_empty (FLAGS_output_model fl)); [| eexists; reflexivity].
  destruct (model_stem_total fl) as [stem ->]. eexists; reflexivity.
Qed.


Lemma output_asm_name_total (fl : Flags) :
  exists name, output_asm_name fl = Ok name.
Proof.
  unfold output_asm_name.
  destruct (string_empty (FLAGS_output_asm fl)); [| eexists; reflexivity].
  destruct (model_stem_total fl) as [stem ->]. eexists; reflexivity.
Qed.

Lemma create_compile_spec_sizes (fl : Flags) (spec : Dict) :
  create_compile_spec fl = Ok spec ->
  exists group,
    parse_input_shapes fl = Ok [group]
    /\ get_input_sizes_for_method spec "forward" = Ok group.
Proof.
  unfold create_compile_spec.
  destruct (parse_input_shapes fl) as [e|shapes]; cbn [rbind];
    [discriminate |].
  destruct shapes as [|g [|g' more]]; cbn [List.length Nat.eqb];
    try discriminate.
  intros H. injection H as <-. exists g. split; reflexivity.
Qed.

(** ** Runs of the driver *)

(** One step of a run kept in hypothesis [H]: a library call returns or
    raises, a driver-side computation returns or throws. *)
Ltac run_step env H :=
  match type of H with
  | context [env ?X ?c ?w] =>
      destruct (env X c w) as [[?|] ?] eqn:?
  | context [lift (create_compile_spec ?fl)] =>
      destruct (create_compile_spec fl) as [?|?] eqn:?
  | context [lift (get_input_sizes_for_method ?s ?m)] =>
      destruct (get_input_sizes_for_method s m) as [?|?] eqn:?
  | context [write_output_assembly ?fl _] =>
      unfold write_output_assembly in H;
      destruct (output_asm_name fl) as [?|?] eqn:?
  | context [let '(_, _) := ?p in _] =>
      is_var p; destruct p
  end;
  cbn [run bind call lift codegen_backend_module registered_preprocess
       preprocess write_output_assembly Ok Err String.eqb Ascii.eqb Bool.eqb]
    in H.

Ltac run_all env H :=
  cbn [run bind call lift codegen_backend_module registered_preprocess
       preprocess write_output_assembly Ok Err String.eqb Ascii.eqb Bool.eqb]
    in H;
  repeat (run_step env H);
  cbn in H; inversion H; subst; clear H.

Ltac run_main env fl H :=
  let name := fresh "name" in
  let Hname := fresh "Hname" in
  destruct (output_model_name_total fl) as [name Hname];
  unfold main in H;
  match goal with
  | Hm : string_empty (FLAGS_model fl) = false |- _ => rewrite Hm, Hname in H
  end;
  run_all env H.

Section DriverFacts.

Context {Module Graph Tensor Code W : Type}.
Variable env : Env Module Graph Tensor Code W.

(** C3, as the code has it. The optimizer applies shape propagation,
    then peephole rewriting, then constant propagation, for two full
    rounds, whatever the passes do to the graph: no round is skipped
    when the one before changed nothing. *)
Theorem optimizer_runs_two_rounds
        (fl : Flags) (w w' : W) (r : result Z)
        (tr : list (event Module Graph Tensor Code)) :
  string_empty (FLAGS_model fl) = false ->
  run env (main (Some fl)) w = (r, tr, w') ->
  (exists rest, round_passes = filter is_round_pass (passes_run tr) ++ rest)
  /\ (forallb returned tr = true ->
      filter is_round_pass (passes_run tr) = round_passes).
Proof.
  intros Hm H. run_main env fl H.
  all: split;
    [ eexists; cbn; reflexivity
    | intros Hret; (reflexivity || (cbn in Hret; discriminate)) ].
Qed.

(** When every library call returns and the compile spec cannot be
    built, [main] ends with the exception of [create_compile_spec], after
    all its passes. *)
Lemma main_stops_at_compile_spec
      (fl : Flags) (e : exn) (w w' : W) (r : result Z)
      (tr : list (event Module Graph Tensor Code)) :
  string_empty (FLAGS_model fl) = false ->
  create_compile_spec fl = Err e ->
  run env (main (Some fl)) w = (r, tr, w') ->
  forallb returned tr = true ->
  r = Err e /\ passes_run tr = main_passes.
Proof.
  intros Hm Hc H Hret. unfold Err in Hc.
  run_main env fl H.
  all: try congruence.
  all: try (injection Hc as ->).
  all: try (split; reflexivity).
  all: cbn in Hret; discriminate.
Qed.


(** C8. The check "Input dims must be specified" compares a size with
    zero by >=, so it passes for every flag value; with an empty
    input_dims flag nothing is parsed and the failure is the later
    shape-count error, with count 0, raised when the compile spec is
    built. *)
Theorem empty_input_dims_passes_guard (fl : Flags) :
  FLAGS_input_dims fl = "" ->
  input_dims_specified fl = true
  /\ (forall fl', input_dims_specified fl' = true)
  /\ parse_input_shapes fl = Ok []
  /\ create_compile_spec fl = Err (CheckError "Wrong # of input shapes: 0")
  /\ (forall w w' r tr,
         string_empty (FLAGS_model fl) = false ->
         run env (main (Some fl)) w = (r, tr, w') ->
         forallb returned tr = true ->
         r = Err (CheckError "Wrong # of input shapes: 0")
         /\ passes_run tr = main_passes).
Proof.
  intros Hempty.
  assert (Hparse : parse_input_shapes fl = Ok []).
  { unfold parse_input_shapes.
    now rewrite input_dims_always_specified, Hempty. }
  repeat split.
  - apply input_dims_always_specified.
  - apply input_dims_always_specified.
  - exact Hparse.
  - unfold create_compile_spec. now rewrite Hparse.
  - apply (main_stops_at_compile_spec fl _ w w' r tr); auto.
    unfold create_compile_spec. now rewrite Hparse.
  - apply (main_stops_at_compile_spec
             fl (CheckError "Wrong # of input shapes: 0") w w' r tr); auto.
    unfold create_compile_spec. now rewrite Hparse.
Qed.



(** What [main] hands to the shape annotator is the example tensor that
    [at::rand] made for the sizes 1, 3, 224, 224. *)
Lemma annotator_gets_example_tensor
      (fl : Flags) (w w' : W) (r : result Z)
      (tr : list (event Module Graph Tensor Code))
      (example_inputs : list (option Tensor)) :
  run env (main (Some fl)) w = (r, tr, w') ->
  In example_inputs (annotator_inputs tr) ->
  exists example,
    example_inputs = [Some example]
    /\ In ([1; 3; 224; 224]%Z, example) (rand_tensors tr).
Proof.
  intros H Hin.
  destruct (string_empty (FLAGS_model fl)) eqn:Hm.
  - unfold main in H. rewrite Hm in H. cbn in H.
    inversion H; subst. contradiction.
  - run_main env fl H.
    all: cbn in Hin; try contradiction.
    all: destruct Hin as [<- | []]; eexists; split;
      [reflexivity | cbn; left; reflexivity].
Qed.

End DriverFacts.

(** ** The driver in the small world *)



(** A graph with two tensor inputs and one declared group: the one group
    passes the count check of the compile spec; what fails is the shape
    annotator, on the one example tensor, after mutation removal and
    dead-code elimination. *)
Example two_inputs_one_group :
  create_compile_spec (with_input_dims "1,3")
  = Ok [("forward", IVGenericDict [("sizes", IVIntList [1; 3]%Z)])]
  /\ fst (fst (run small_env (main (Some (with_input_dims "1,3")))
                   [None; None]))
     = Err (ExternalError "library call")
  /\ passes_run (snd (fst (run small_env (main (Some (with_input_dims "1,3")))
                               [None; None])))
     = [RemoveTensorMutationPass; EliminateDeadCodePass;
        RemoveUnusedSelfArgumentPass; AnnotateInputShapesPass].
Proof. repeat split. Qed.

Lemma optimizer_runs_two_rounds_witness :
  filter is_round_pass
         (passes_run (snd (fst (run small_env
                                    (main (Some (with_input_dims "1,3,224,224")))
                                    one_input))))
  = round_passes.
Proof.
  refine (proj2 (optimizer_runs_two_rounds
                   small_env (with_input_dims "1,3,224,224") one_input
                   _ _ _ eq_refl eq_refl) eq_refl).
Defined.

(** C3, as stated, fails: in the small world no round pass changes
    anything, so the first full round changes no shape and no value, and
    the second round runs all the same. *)
Lemma second_round_runs_without_change :
  (forall g w, small_env _ (PropagateShapesOnGraph g) w = (Some tt, w))
  /\ (forall g b w, small_env _ (PeepholeOptimize g b) w = (Some tt, w))
  /\ (forall g w, small_env _ (ConstantPropagation g) w = (Some tt, w))
  /\ filter is_round_pass
            (passes_run (snd (fst (run small_env
                                       (main (Some (with_input_dims "1,3,224,224")))
                                       one_input))))
     = round_passes
  /\ filter is_round_pass
            (passes_run (snd (fst (run small_env
                                       (main (Some (with_input_dims "1,3,224,224")))
                                       one_input))))
     <> spec_round_passes false.
Proof. repeat split. discriminate. Qed.


Example default_names_in_a_run :
  models_saved (snd (fst (run small_env
                              (main (Some (mkFlags "model.v2.pt" "resnet" "1.0"
                                                   "1,3,224,224" "" "")))
                              one_input)))
  = ["model.compiled.pt"]
  /\ files_written (snd (fst (run small_env
                                  (main (Some (mkFlags "model.v2.pt" "resnet"
                                                       "1.0" "1,3,224,224"
                                                       "" "")))
                                  one_input)))
     = [("model.compiled.ll", "; forward")].
Proof. repeat split. Qed.

Example kernel_id_in_a_run :
  serialized_units (snd (fst (run small_env
                                  (main (Some (with_input_dims "1,3,224,224")))
                                  one_input)))
  = [[mkFunction "resnet:1.0:forward:VERTOKEN" [1; 3; 224; 224]%Z tt]].
Proof. reflexivity. Qed.

Lemma empty_input_dims_passes_guard_witness :
  create_compile_spec (with_input_dims "")
  = Err (CheckError "Wrong # of input shapes: 0").
Proof.
  apply (empty_input_dims_passes_guard small_env (with_input_dims "")).
  reflexivity.
Defined.

(** C1 does not hold of the code: with input_dims "1,3,32,32" the declared
    shape is [1,3,32,32], but the shape annotator is given the example
    tensor of sizes [1,3,224,224] and the graph input is annotated with
    that shape. *)
Theorem annotation_ignores_input_dims :
  parse_input_shapes (with_input_dims "1,3,32,32") = Ok [[1; 3; 32; 32]]%Z
  /\ annotator_inputs
       (snd (fst (run small_env (main (Some (with_input_dims "1,3,32,32")))
                      one_input)))
     = [[Some [1; 3; 224; 224]%Z]]
  /\ snd (run small_env (main (Some (with_input_dims "1,3,32,32"))) one_input)
     = [Some [1; 3; 224; 224]%Z]
  /\ fst (fst (run small_env (main (Some (with_input_dims "1,3,32,32")))
                   one_input))
     = Ok 0%Z.
Proof. repeat split. Qed.

(** * Further properties *)

(** ** split *)

Lemma split_false_empty_iff (sep : ascii) (s : string) :
  split sep s false = [] <-> s = "".
Proof.
  split; [| intros ->; reflexivity].
  destruct s as [|c s]; [reflexivity |].
  rewrite split_step. unfold kept. cbn [negb orb app]. discriminate.
Qed.

Lemma ends_with_no_separator (sep : ascii) (s : string) :
  occurs sep s = false -> ends_with sep s = false.
Proof.
  induction s as [|c s IH]; [reflexivity |].
  cbn [occurs ends_with]. intros H.
  apply orb_false_iff in H as [Hc Hs].
  destruct s; [exact Hc | now apply IH].
Qed.

Lemma ends_with_append (sep : ascii) (a b : string) :
  b <> "" -> ends_with sep (a ++ b) = ends_with sep b.
Proof.
  intros Hb. induction a as [|c a IH]; [reflexivity |].
  cbn [append ends_with]. rewrite IH.
  destruct (a ++ b)%string eqn:E; [| reflexivity].
  destruct a; cbn in E; [congruence | discriminate].
Qed.

(** X1. Splitting without dropping empty pieces loses nothing but one
    trailing separator: joining the pieces with the separator, and putting
    the separator back when the string ended with it, gives the string. *)
Theorem split_keeping_empty_rejoins (sep : ascii) (s : string) :
  (join (String sep "") (split sep s false)
     ++ (if ends_with sep s then String sep "" else ""))%string = s.
Proof.
  remember (String.length s) as n eqn:Hn. revert s Hn.
  induction n as [n IH] using lt_wf_ind. intros s Hn.
  destruct s as [|c s]; [reflexivity |].
  rewrite split_step.
  destruct (getline (String c s) sep) as [item rest] eqn:Hg.
  pose proof (getline_consumes _ _ _ _ _ Hg) as Hrest.
  destruct (getline_decompose _ _ _ _ Hg) as [Hitem [Hs | [Hs Hr]]].
  - cbn [fst snd]. unfold kept. cbn [negb orb app].
    assert (IHrest := IH (String.length rest)
                         ltac:(simpl in Hn; lia) rest eq_refl).
    rewrite Hs.
    destruct rest as [|r rest'].
    + rewrite split_empty. cbn [join].
      rewrite ends_with_append by discriminate. cbn [ends_with].
      now rewrite Ascii.eqb_refl.
    + destruct (split sep (String r rest') false) as [|p more] eqn:Hsp.
      { apply split_false_empty_iff in Hsp. discriminate. }
      rewrite ends_with_append by discriminate.
      change (ends_with sep (String sep (String r rest')))
        with (ends_with sep (String r rest')).
      change ([item] ++ p :: more) with (item :: p :: more).
      change (join (String sep "") (item :: p :: more))
        with (item ++ String sep "" ++ join (String sep "") (p :: more))%string.
      rewrite !append_assoc. cbn [append].
      now rewrite IHrest.
  - subst rest. rewrite Hs. cbn [fst snd]. unfold kept.
    cbn [negb orb app]. rewrite split_empty. cbn [join].
    rewrite (ends_with_no_separator _ _ Hitem). apply append_empty_r.
Qed.

(** X2. Dropping empty pieces is all that [ignore_empty] does: the pieces
    with it are the non-empty pieces without it, in the same order. *)
Theorem split_ignore_empty_filters (sep : ascii) (s : string) :
  split sep s true
  = filter (fun p => negb (string_empty p)) (split sep s false).
Proof.
  remember (String.length s) as n eqn:Hn. revert s Hn.
  induction n as [n IH] using lt_wf_ind. intros s Hn.
  destruct s as [|c s]; [reflexivity |].
  rewrite !split_step.
  destruct (getline (String c s) sep) as [item rest] eqn:Hg.
  pose proof (getline_consumes _ _ _ _ _ Hg) as Hrest.
  cbn [fst snd]. rewrite filter_app.
  assert (Hlt : String.length rest < n) by (simpl in Hn; lia).
  rewrite (IH _ Hlt rest eq_refl).
  reflexivity.
Qed.

(** X3. No piece that [split] returns contains the separator, with or
    without [ignore_empty]. *)
Theorem split_pieces_without_separator
        (sep : ascii) (s : string) (ignore_empty : bool) :
  Forall (fun p => occurs sep p = false) (split sep s ignore_empty).
Proof.
  remember (String.length s) as n eqn:Hn. revert s Hn.
  induction n as [n IH] using lt_wf_ind. intros s Hn.
  destruct s as [|c s]; [constructor |].
  rewrite split_step.
  destruct (getline (String c s) sep) as [item rest] eqn:Hg.
  pose proof (getline_consumes _ _ _ _ _ Hg) as Hrest.
  destruct (getline_decompose _ _ _ _ Hg) as [Hitem _].
  cbn [fst snd]. apply Forall_app. split.
  - unfold kept. destruct (negb ignore_empty || negb (string_empty item));
      repeat constructor. exact Hitem.
  - apply (IH (String.length rest)); [simpl in Hn; lia | reflexivity].
Qed.

(** ** parse_input_shapes on arbitrary strings *)

Lemma parse_dims_ok (l : list string) (acc r : list Z) :
  parse_dims l acc = Ok r <->
  exists vs, r = acc ++ vs /\ Forall2 (fun tok v => stoi tok = Ok v) l vs.
Proof.
  revert acc r.
  induction l as [|tok l IH]; intros acc r; cbn [parse_dims].
  - split.
    + intros H. injection H as <-. exists []. split; [now rewrite app_nil_r |].
      constructor.
    + intros (vs & -> & H). inversion H; subst. now rewrite app_nil_r.
  - destruct (stoi tok) as [e|v] eqn:Hs; cbn [rbind].
    + split; [discriminate |].
      intros (vs & _ & H). inversion H; subst. unfold Ok in *. congruence.
    + rewrite IH. split.
      * intros (vs & -> & H). exists (v :: vs). split.
        -- now rewrite <- app_assoc.
        -- now constructor.
      * intros (vs & -> & H). inversion H as [|? v' ? vs' Hv Hrest]; subst.
        assert (v' = v) by (unfold Ok in *; congruence). subst v'.
        exists vs'. split; [now rewrite <- app_assoc | assumption].
Qed.

Lemma parse_items_ok (l : list string) (acc r : list (list Z)) :
  parse_items l acc = Ok r <->
  exists gs,
    r = acc ++ gs
    /\ Forall2 (fun item group =>
                  Forall2 (fun tok v => stoi tok = Ok v)
                          (split "," item true) group) l gs.
Proof.
  revert acc r.
  induction l as [|item l IH]; intros acc r; cbn [parse_items].
  - split.
    + intros H. injection H as <-. exists []. split; [now rewrite app_nil_r |].
      constructor.
    + intros (gs & -> & H). inversion H; subst. now rewrite app_nil_r.
  - destruct (parse_dims (split "," item true) []) as [e|g] eqn:Hd;
      cbn [rbind].
    + split; [discriminate |].
      intros (gs & _ & H). inversion H as [|? g ? gs' Hg Hrest]; subst.
      assert (Hok : parse_dims (split "," item true) [] = Ok g).
      { apply parse_dims_ok. now exists g. }
      unfold Ok in Hok. congruence.
    + assert (Hg : Forall2 (fun tok v => stoi tok = Ok v)
                           (split "," item true) g).
      { destruct (proj1 (parse_dims_ok _ _ _) Hd) as (vs & -> & H).
        exact H. }
      rewrite IH. split.
      * intros (gs & -> & H). exists (g :: gs). split.
        -- now rewrite <- app_assoc.
        -- now constructor.
      * intros (gs & -> & H). inversion H as [|? g' ? gs' Hg' Hrest]; subst.
        assert (Hok : parse_dims (split "," item true) [] = Ok g').
        { apply parse_dims_ok. now exists g'. }
        assert (g' = g) by (unfold Ok in *; congruence). subst g'.
        exists gs'. split; [now rewrite <- app_assoc | assumption].
Qed.

Lemma parse_dims_fails (l : list string) (acc : list Z) :
  (exists e, parse_dims l acc = Err e) <->
  Exists (fun tok => exists e, stoi tok = Err e) l.
Proof.
  revert acc.
  induction l as [|tok l IH]; intros acc; cbn [parse_dims].
  - split; [intros [e H]; discriminate | intros H; inversion H].
  - destruct (stoi tok) as [e|v] eqn:Hs; cbn [rbind].
    + split; [| intros _; now exists e].
      intros _. left. now exists e.
    + rewrite IH. split.
      * intros H. now right.
      * intros H. inversion H as [? ? [e He]|]; subst;
          [rewrite Hs in He; discriminate | assumption].
Qed.

Lemma parse_items_fails (l : list string) (acc : list (list Z)) :
  (exists e, parse_items l acc = Err e) <->
  Exists (fun item =>
            Exists (fun tok => exists e, stoi tok = Err e)
                   (split "," item true)) l.
Proof.
  revert acc.
  induction l as [|item l IH]; intros acc; cbn [parse_items].
  - split; [intros [e H]; discriminate | intros H; inversion H].
  - destruct (parse_dims (split "," item true) []) as [e|g] eqn:Hd;
      cbn [rbind].
    + split; [| intros _; now exists e].
      intros _. left. apply (parse_dims_fails _ []). now exists e.
    + rewrite IH. split.
      * intros H. now right.
      * intros H. inversion H as [? ? Hbad|]; subst; [| assumption].
        apply (parse_dims_fails _ []) in Hbad as [e He].
        rewrite Hd in He. discriminate.
Qed.

(** X4. Whatever the input-dimension string, parsing succeeds exactly when
    [c10::stoi] accepts every non-empty comma piece of every non-empty
    semicolon piece, and then there is one group per semicolon piece and,
    in it, one dimension per comma piece, in order; it fails exactly when
    some such piece is refused. *)
Theorem parse_input_shapes_piecewise (fl : Flags) :
  (forall shapes,
      parse_input_shapes fl = Ok shapes <->
      Forall2 (fun item group =>
                 Forall2 (fun tok v => stoi tok = Ok v)
                         (split "," item true) group)
              (split ";" (FLAGS_input_dims fl) true) shapes)
  /\ ((exists e, parse_input_shapes fl = Err e) <->
      Exists (fun item =>
                Exists (fun tok => exists e, stoi tok = Err e)
                       (split "," item true))
             (split ";" (FLAGS_input_dims fl) true)).
Proof.
  unfold parse_input_shapes. rewrite input_dims_always_specified.
  split.
  - intros shapes. rewrite parse_items_ok. split.
    + intros (gs & -> & H). exact H.
    + intros H. now exists shapes.
  - apply parse_items_fails.
Qed.

Lemma stoi_in_int_range (s : string) (v : Z) :
  stoi s = Ok v -> in_int_range v = true.
Proof.
  unfold stoi, in_int_range.
  destruct (match skip_spaces s with
            | String "-" rest => (true, rest)
            | String "+" rest => (false, rest)
            | _ => (false, skip_spaces s)
            end) as [negative body].
  destruct (read_digits body 0 false) as [n|]; [| discriminate].
  destruct ((INT_MIN <=? (if negative then (- n)%Z else n))%Z
            && ((if negative then (- n)%Z else n) <=? INT_MAX)%Z) eqn:E;
    [| discriminate].
  intros H. injection H as <-. exact E.
Qed.

(** X5. Every dimension of a successfully parsed specification fits a
    32-bit [int], the result type of [c10::stoi], although the groups are
    vectors of [int64_t]. *)
Theorem parsed_dimensions_fit_int (fl : Flags) (shapes : list (list Z)) :
  parse_input_shapes fl = Ok shapes ->
  Forall (Forall (fun v => (- 2 ^ 31 <= v <= 2 ^ 31 - 1)%Z)) shapes.
Proof.
  unfold parse_input_shapes. rewrite input_dims_always_specified.
  intros H. apply parse_items_ok in H as (gs & -> & H). cbn [app].
  induction H as [|item g items gs' Hg _ IH]; constructor; [| exact IH].
  induction Hg as [|tok v toks vs Hv _ IHg]; constructor; [| exact IHg].
  apply stoi_in_int_range in Hv. unfold in_int_range in Hv.
  apply andb_true_iff in Hv as [Hlo Hhi].
  apply Z.leb_le in Hlo, Hhi. unfold INT_MIN, INT_MAX in *. lia.
Qed.

Lemma parsed_dimensions_fit_int_witness :
  Forall (Forall (fun v => (- 2 ^ 31 <= v <= 2 ^ 31 - 1)%Z))
         [[1; 3; 224; 224]%Z].
Proof.
  apply (parsed_dimensions_fit_int (with_input_dims "1,3,224,224")).
  reflexivity.
Defined.

(** ** Flags made of separators only *)

Lemma split_replicate_separator (sep : ascii) (n : nat) :
  split sep (replicate n sep) true = [].
Proof.
  induction n as [|n IH]; [reflexivity |].
  cbn [replicate]. now rewrite split_leading_separator.
Qed.

Lemma occurs_replicate (c a : ascii) (n : nat) :
  Ascii.eqb a c = false -> occurs c (replicate n a) = false.
Proof.
  intros H. induction n as [|n IH]; [reflexivity |].
  cbn [replicate occurs]. now rewrite H, IH.
Qed.

(** X6. A non-empty input_dims flag made of commas only is not refused:
    it parses to one group with no dimension, and the compile spec is
    built with an empty "sizes" list. *)
Theorem commas_only_is_one_empty_group (fl : Flags) (n : nat) :
  n <> 0 ->
  FLAGS_input_dims fl = replicate n "," ->
  parse_input_shapes fl = Ok [[]]
  /\ create_compile_spec fl
     = Ok [("forward", IVGenericDict [("sizes", IVIntList [])])].
Proof.
  intros Hn Hdims.
  assert (Hparse : parse_input_shapes fl = Ok [[]]).
  { unfold parse_input_shapes.
    rewrite input_dims_always_specified, Hdims.
    rewrite split_one_piece by (now apply occurs_replicate).
    unfold kept. destruct n as [|n]; [congruence |].
    cbn [replicate string_empty negb orb parse_items].
    change (String "," (replicate n ",")) with (replicate (S n) ",").
    now rewrite split_replicate_separator. }
  split; [exact Hparse |].
  unfold create_compile_spec. now rewrite Hparse.
Qed.

Lemma commas_only_is_one_empty_group_witness :
  create_compile_spec (with_input_dims ",,,")
  = Ok [("forward", IVGenericDict [("sizes", IVIntList [])])].
Proof.
  apply (commas_only_is_one_empty_group (with_input_dims ",,,") 3);
    [discriminate | reflexivity].
Defined.

(** ** The compile spec and other methods *)

(** X7. The compile spec that [create_compile_spec] builds serves the
    method "forward" only: asking it for the input sizes of any other
    method is the out-of-range error of the dictionary lookup. *)
Theorem compile_spec_has_no_other_method
        (fl : Flags) (spec : Dict) (method_name : string) :
  create_compile_spec fl = Ok spec ->
  method_name <> "forward" ->
  get_input_sizes_for_method spec method_name
  = Err (OutOfRange "Argument passed to at() was not in the map.").
Proof.
  unfold create_compile_spec.
  destruct (parse_input_shapes fl) as [e|shapes]; cbn [rbind];
    [discriminate |].
  destruct (Nat.eqb (List.length shapes) 1); [| discriminate].
  intros H Hname. injection H as <-.
  unfold get_input_sizes_for_method, dict_at, dict_insert.
  change (dict_find [] "sizes") with (@None IValue).
  change (dict_find [] "forward") with (@None IValue). cbv iota.
  change ([] ++ [("forward",
                  IVGenericDict
                    ([] ++ [("sizes", IVIntList (nth 0 shapes []))]))])
    with [("forward",
           IVGenericDict [("sizes", IVIntList (nth 0 shapes []))])].
  cbn [dict_find].
  destruct (String.eqb_spec "forward" method_name) as [E | _];
    [congruence | reflexivity].
Qed.

Lemma compile_spec_has_no_other_method_witness :
  get_input_sizes_for_method
    [("forward", IVGenericDict [("sizes", IVIntList [1; 3]%Z)])] "backward"
  = Err (OutOfRange "Argument passed to at() was not in the map.").
Proof.
  apply (compile_spec_has_no_other_method (with_input_dims "1,3"));
    [reflexivity | discriminate].
Defined.

(** ** Kernel ids *)

Lemma append_cancel_r (a b s : string) :
  (a ++ s)%string = (b ++ s)%string -> a = b.
Proof.
  revert b. induction a as [|x a IH]; intros b H.
  - destruct b as [|y b]; [reflexivity |].
    apply (f_equal String.length) in H.
    cbn [append String.length] in H. rewrite length_append in H. lia.
  - destruct b as [|y b].
    + apply (f_equal String.length) in H.
      cbn [append String.length] in H. rewrite length_append in H. lia.
    + cbn [append] in H. injection H as -> H. f_equal. now apply IH.
Qed.

Lemma first_separator_splits_uniquely (c : ascii) (a b x y : string) :
  occurs c a = false -> occurs c b = false ->
  (a ++ String c x)%string = (b ++ String c y)%string ->
  a = b /\ x = y.
Proof.
  intros Ha Hb H.
  pose proof (getline_stops_at_separator c a x Ha) as Ga.
  rewrite H, (getline_stops_at_separator c b y Hb) in Ga.
  injection Ga as -> ->. split; reflexivity.
Qed.

(** X8. For one method, the kernel id tells model name and version apart
    as long as the model names hold no colon: two flag settings with
    colon-free model names and the same kernel id have the same model
    name and the same model version. *)
Theorem kernel_id_determines_name_and_version
        (fl1 fl2 : Flags) (method_name : string) :
  occurs ":" (FLAGS_model_name fl1) = false ->
  occurs ":" (FLAGS_model_name fl2) = false ->
  get_nnc_kernel_id fl1 method_name = get_nnc_kernel_id fl2 method_name ->
  FLAGS_model_name fl1 = FLAGS_model_name fl2
  /\ FLAGS_model_version fl1 = FLAGS_model_version fl2.
Proof.
  intros H1 H2 H. unfold get_nnc_kernel_id in H. cbn [append] in H.
  apply (first_separator_splits_uniquely ":" _ _ _ _ H1 H2) in H
    as [Hname Hversion].
  split; [exact Hname |].
  now apply append_cancel_r in Hversion.
Qed.

Lemma kernel_id_determines_name_and_version_witness :
  FLAGS_model_name (mkFlags "a.pt" "resnet" "1.0" "1" "" "")
  = FLAGS_model_name (mkFlags "b.pt" "resnet" "1.0" "2,2" "x" "y")
  /\ FLAGS_model_version (mkFlags "a.pt" "resnet" "1.0" "1" "" "")
     = FLAGS_model_version (mkFlags "b.pt" "resnet" "1.0" "2,2" "x" "y").
Proof.
  apply (kernel_id_determines_name_and_version
           (mkFlags "a.pt" "resnet" "1.0" "1" "" "")
           (mkFlags "b.pt" "resnet" "1.0" "2,2" "x" "y") "forward");
    reflexivity.
Defined.

(** With a colon in the model name, ids collide. *)
Example kernel_ids_collide_with_colons :
  get_nnc_kernel_id (mkFlags "m.pt" "a:b" "c" "1" "" "") "forward"
  = get_nnc_kernel_id (mkFlags "m.pt" "a" "b:c" "1" "" "") "forward".
Proof. reflexivity. Qed.

(** ** Output names without a dot in the model path *)

(** X9. For a model path without any '.', [find] returns [npos] and the
    default output names are the whole model path followed by
    ".compiled.pt" and ".compiled.ll". *)
Theorem default_output_names_without_dot (fl : Flags) :
  occurs "." (FLAGS_model fl) = false ->
  (string_size (FLAGS_model fl) <= npos)%N ->
  string_find (FLAGS_model fl) "." = npos
  /\ (FLAGS_output_model fl = "" ->
      output_model_name fl = Ok (FLAGS_model fl ++ ".compiled.pt")%string)
  /\ (FLAGS_output_asm fl = "" ->
      output_asm_name fl = Ok (FLAGS_model fl ++ ".compiled.ll")%string).
Proof.
  intros Hdot Hsize.
  pose proof (model_stem_without_dot fl Hdot Hsize) as Hstem.
  repeat split.
  - unfold string_find. now rewrite (first_index_absent _ _ Hdot).
  - intros Hflag. unfold output_model_name. now rewrite Hflag, Hstem.
  - intros Hflag. unfold output_asm_name. now rewrite Hflag, Hstem.
Qed.

Lemma default_output_names_without_dot_witness :
  output_model_name (mkFlags "model" "resnet" "1.0" "1,3" "" "")
  = Ok "model.compiled.pt".
Proof.
  destruct (default_output_names_without_dot
              (mkFlags "model" "resnet" "1.0" "1,3" "" "")) as (_ & H & _);
    [reflexivity | vm_compute; discriminate | apply H; reflexivity].
Defined.

(** ** Further runs of the driver *)

(** Closes a goal about the members of a view of a finished run. *)
Ltac member_of_view Hin :=
  cbn in Hin;
  repeat match type of Hin with
         | _ \/ _ => destruct Hin as [Hin | Hin]
         end;
  try contradiction;
  try (inversion Hin; subst).

(** Finds a member of a view by its position. *)
Ltac find_member :=
  cbn; repeat (first [left; reflexivity | right]).

Section MoreDriverFacts.

Context {Module Graph Tensor Code W : Type}.
Variable env : Env Module Graph Tensor Code W.

(** X10. Whatever the libraries do, [preprocess] calls the compiler only
    for the method "forward", on a copy of the graph of that method of
    the module it was given, and with the input sizes that the compile
    spec holds for "forward". *)
Theorem preprocess_compiles_what_the_spec_declares
        (fl : Flags) (mod_ : Module) (spec : Dict) (w w' : W)
        (r : result IValue) (tr : list (event Module Graph Tensor Code))
        (name : string) (g : Graph) (sizes : list Z) :
  run env (preprocess fl mod_ spec) w = (r, tr, w') ->
  In (name, g, sizes) (compile_calls tr) ->
  name = "forward"
  /\ get_input_sizes_for_method spec "forward" = Ok sizes
  /\ exists method_graph,
       In (mod_, "forward", method_graph) (method_graphs tr)
       /\ In (method_graph, g) (graph_copies tr).
Proof.
  intros H Hin. unfold preprocess in H. run_all env H.
  all: member_of_view Hin.
  all: repeat split; try assumption;
    eexists; split; cbn; left; reflexivity.
Qed.

(** X11. When the compile spec does not hold input sizes for "forward",
    [preprocess] fails before it compiles: the compiler is not called,
    nothing is written and nothing is serialized, and with library calls
    that return the failure is the one of the lookup. *)
Theorem preprocess_stops_on_a_bad_spec
        (fl : Flags) (mod_ : Module) (spec : Dict) (e : exn) (w w' : W)
        (r : result IValue) (tr : list (event Module Graph Tensor Code)) :
  get_input_sizes_for_method spec "forward" = Err e ->
  run env (preprocess fl mod_ spec) w = (r, tr, w') ->
  compile_calls tr = []
  /\ files_written tr = []
  /\ serialized_units tr = []
  /\ (exists e', r = Err e')
  /\ (forallb returned tr = true -> r = Err e).
Proof.
  intros Hspec H. unfold Err in Hspec.
  unfold preprocess in H. run_all env H.
  all: try congruence.
  all: try (injection Hspec as ->).
  all: repeat split; try reflexivity; try (eexists; reflexivity).
  all: intros Hret; cbn in Hret; discriminate.
Qed.


(** X13. In every run of [main], the compiler is called with the one
    shape group declared by the input_dims flag, for the method
    "forward", on a copy of the forward graph of the frozen module. *)
Theorem main_compiles_the_declared_shape
        (fl : Flags) (w w' : W) (r : result Z)
        (tr : list (event Module Graph Tensor Code))
        (name : string) (g : Graph) (sizes : list Z) :
  run env (main (Some fl)) w = (r, tr, w') ->
  In (name, g, sizes) (compile_calls tr) ->
  name = "forward"
  /\ parse_input_shapes fl = Ok [sizes]
  /\ exists clone frozen method_graph,
       In (clone, frozen) (frozen_modules tr)
       /\ In (frozen, "forward", method_graph) (method_graphs tr)
       /\ In (method_graph, g) (graph_copies tr).
Proof.
  intros H Hin.
  destruct (string_empty (FLAGS_model fl)) eqn:Hm.
  - unfold main in H. rewrite Hm in H. cbn in H.
    inversion H; subst. contradiction.
  - run_main env fl H.
    all: member_of_view Hin.
    all: match goal with
         | Hc : create_compile_spec _ = inr ?d,
           Hs : get_input_sizes_for_method ?d _ = inr _ |- _ =>
             destruct (create_compile_spec_sizes _ _ Hc) as (grp & Hp & Hg);
             rewrite Hg in Hs; injection Hs as <-
         end.
    all: split; [reflexivity | split; [assumption |]].
    all: eexists; eexists; eexists;
      (split; [| split; [| find_member]]); [| find_member]; find_member.
Qed.

(** X14. When no library call raises, the outcome of [main] is decided by
    the flags alone: the usage error for an empty model flag, else the
    exception of [create_compile_spec] if it throws, else exit code 0. *)
Theorem main_outcome_when_calls_return
        (fl : Flags) (w w' : W) (r : result Z)
        (tr : list (event Module Graph Tensor Code)) :
  run env (main (Some fl)) w = (r, tr, w') ->
  forallb returned tr = true ->
  r = if string_empty (FLAGS_model fl)
      then Err (EnforceError UsageMessage)
      else match create_compile_spec fl with
           | inl e => Err e
           | inr _ => Ok 0%Z
           end.
Proof.
  intros H Hret.
  destruct (string_empty (FLAGS_model fl)) eqn:Hm.
  - unfold main in H. rewrite Hm in H. cbn in H.
    now inversion H.
  - destruct (output_asm_name_total fl) as [asm_name Hasm].
    unfold Ok in Hasm.
    run_main env fl H.
    all: try (cbn in Hret; discriminate).
    all: try reflexivity.
    all: try congruence.
    all: match goal with
         | Hc : create_compile_spec _ = inr ?d,
           Hs : get_input_sizes_for_method ?d _ = inl _ |- _ =>
             destruct (create_compile_spec_sizes _ _ Hc) as (grp & Hp & Hg);
             unfold Ok in Hg; congruence
         end.
Qed.

(** X15. [main] returns 1 only when the flags could not be parsed, after
    printing and without loading, optimizing or writing anything; it
    returns 0 only after every library call returned, every pass ran, and
    the assembly file and then the model were written under the output
    names. No other exit code is returned. *)
Theorem main_exit_codes
        (parsed : option Flags) (w w' : W) (v : Z)
        (tr : list (event Module Graph Tensor Code)) :
  run env (main parsed) w = (Ok v, tr, w') ->
  (parsed = None /\ v = 1%Z
   /\ models_loaded tr = [] /\ passes_run tr = [] /\ artifacts tr = [])
  \/ (exists fl asm_name model_name,
        parsed = Some fl /\ v = 0%Z
        /\ output_asm_name fl = Ok asm_name
        /\ output_model_name fl = Ok model_name
        /\ forallb returned tr = true
        /\ passes_run tr = main_passes
        /\ artifacts tr = [AsmFile asm_name; ModelFile model_name]).
Proof.
  intros H. destruct parsed as [fl|].
  - right.
    destruct (string_empty (FLAGS_model fl)) eqn:Hm.
    + unfold main in H. rewrite Hm in H. cbn in H. inversion H.
    + run_main env fl H.
      eexists; eexists; eexists. repeat split; eassumption.
  - left. unfold main in H. run_all env H. repeat split.
Qed.


(** X17. With an empty model flag [main] throws the usage message before
    any library call; otherwise its first library call loads the model
    named by the flag, and no other model is ever loaded. *)
Theorem main_loads_the_flag_model
        (fl : Flags) (w w' : W) (r : result Z)
        (tr : list (event Module Graph Tensor Code)) :
  run env (main (Some fl)) w = (r, tr, w') ->
  (FLAGS_model fl = "" ->
   r = Err (EnforceError UsageMessage) /\ tr = [] /\ w' = w)
  /\ (FLAGS_model fl <> "" ->
      models_loaded tr = [FLAGS_model fl]
      /\ models_loaded (firstn 1 tr) = [FLAGS_model fl]).
Proof.
  intros H. split.
  - intros Hempty. unfold main in H. rewrite Hempty in H. cbn in H.
    inversion H; subst. repeat split.
  - intros Hmodel.
    assert (Hm : string_empty (FLAGS_model fl) = false)
      by (now apply string_empty_false).
    run_main env fl H.
    all: split; reflexivity.
Qed.

(** X18. Output flags that are not empty are used as they are: the model
    is saved to the output-model flag and the assembly is written to the
    output-assembly flag, whatever the model path. *)
Theorem explicit_output_names (fl : Flags) :
  (FLAGS_output_model fl <> "" ->
   output_model_name fl = Ok (FLAGS_output_model fl)
   /\ forall w w' r tr name,
       run env (main (Some fl)) w = (r, tr, w') ->
       In name (models_saved tr) -> name = FLAGS_output_model fl)
  /\ (FLAGS_output_asm fl <> "" ->
      output_asm_name fl = Ok (FLAGS_output_asm fl)
      /\ forall w w' r tr file,
          run env (main (Some fl)) w = (r, tr, w') ->
          In file (files_written tr) -> fst file = FLAGS_output_asm fl).
Proof.
  split.
  - intros Hflag. apply string_empty_false in Hflag.
    assert (Hname : output_model_name fl = Ok (FLAGS_output_model fl)).
    { unfold output_model_name. now rewrite Hflag. }
    split; [exact Hname |].
    intros w w' r tr name H Hin.
    destruct (string_empty (FLAGS_model fl)) eqn:Hm.
    + unfold main in H. rewrite Hm in H. cbn in H.
      inversion H; subst. contradiction.
    + unfold main in H. rewrite Hm, Hname in H. run_all env H.
      all: member_of_view Hin; reflexivity.
  - intros Hflag. apply string_empty_false in Hflag.
    assert (Hname : output_asm_name fl = Ok (FLAGS_output_asm fl)).
    { unfold output_asm_name. now rewrite Hflag. }
    unfold Ok in Hname.
    split; [exact Hname |].
    intros w w' r tr file H Hin.
    destruct (string_empty (FLAGS_model fl)) eqn:Hm.
    + unfold main in H. rewrite Hm in H. cbn in H.
      inversion H; subst. contradiction.
    + run_main env fl H.
      all: try congruence.
      all: try (injection Hname as ->).
      all: member_of_view Hin; reflexivity.
Qed.

(** X19. What [main] hands to the backend module packager: the backend
    name "nnc", the compile spec built from the flags, the value the
    serialization of the compilation unit returned, and the frozen
    module. The run then began with these four library calls, in this
    order: the model is loaded, the loaded module is put in evaluation
    mode, the loaded module is cloned, the clone is frozen; the module
    packaged is what freezing returned. The module [main] saves is the
    one the packager returned. *)
Theorem main_packages_the_frozen_module
        (fl : Flags) (w w' : W) (r : result Z)
        (tr : list (event Module Graph Tensor Code)) :
  run env (main (Some fl)) w = (r, tr, w') ->
  (forall backend m spec v,
      In (backend, m, spec, v) (packaged tr) ->
      backend = "nnc"
      /\ create_compile_spec fl = Ok spec
      /\ (exists cu, In (cu, v) (serialized_values tr))
      /\ exists loaded clone evaled,
           firstn 4 tr
           = [Returned (JitLoad (FLAGS_model fl)) loaded;
              Returned (ModuleEval loaded) evaled;
              Returned (ModuleClone loaded) clone;
              Returned (FreezeModule clone) m]
           /\ In loaded (loaded_modules tr)
           /\ In loaded (evaled_modules tr)
           /\ In (loaded, clone) (module_clones tr)
           /\ In (clone, m) (frozen_modules tr))
  /\ (forall m name,
         In (m, name) (saved_modules tr) -> In m (packaged_modules tr)).
Proof.
  intros H.
  destruct (string_empty (FLAGS_model fl)) eqn:Hm.
  - unfold main in H. rewrite Hm in H. cbn in H. inversion H; subst.
    split; intros; contradiction.
  - run_main env fl H.
    all: split;
      [ intros backend m' spec v Hin; member_of_view Hin
      | intros m' name' Hin; member_of_view Hin; find_member ].
    all: split; [reflexivity | split; [reflexivity | split]].
    all: try solve [eexists; find_member].
    all: eexists; eexists; eexists;
      (split; [reflexivity | repeat split; find_member]).
Qed.

(** X20. The graph each pass of [main] works on: mutation removal,
    dead-code elimination and the removal of the unused self argument
    are applied to the forward graph of the frozen module; shape
    annotation and every later pass are applied to the graph that
    [removeUnusedSelfArgument] returned. *)
Theorem main_passes_work_on_one_graph
        (fl : Flags) (w w' : W) (r : result Z)
        (tr : list (event Module Graph Tensor Code))
        (p : pass) (g : Graph) :
  run env (main (Some fl)) w = (r, tr, w') ->
  In (p, g) (pass_graphs tr) ->
  match p with
  | RemoveTensorMutationPass | EliminateDeadCodePass
  | RemoveUnusedSelfArgumentPass =>
      exists clone frozen,
        In (clone, frozen) (frozen_modules tr)
        /\ In (frozen, "forward", g) (method_graphs tr)
  | _ =>
      exists method_graph frozen,
        In (frozen, "forward", method_graph) (method_graphs tr)
        /\ In (method_graph, g) (self_removed tr)
  end.
Proof.
  intros H Hin.
  destruct (string_empty (FLAGS_model fl)) eqn:Hm.
  - unfold main in H. rewrite Hm in H. cbn in H. inversion H; subst.
    contradiction.
  - run_main env fl H.
    all: member_of_view Hin.
    all: eexists; eexists; (split; [| find_member]); find_member.
Qed.

End MoreDriverFacts.

(** ** The further properties in the small world *)

Lemma preprocess_compiles_what_the_spec_declares_witness :
  get_input_sizes_for_method
    [("forward", IVGenericDict [("sizes", IVIntList [1; 3]%Z)])] "forward"
  = Ok [1; 3]%Z.
Proof.
  refine (proj1 (proj2
            (preprocess_compiles_what_the_spec_declares
               small_env (with_input_dims "1,3") tt
               [("forward", IVGenericDict [("sizes", IVIntList [1; 3]%Z)])]
               one_input _ _ _ "forward" tt [1; 3]%Z eq_refl _))).
  cbn. left. reflexivity.
Defined.

Lemma preprocess_stops_on_a_bad_spec_witness :
  compile_calls
    (snd (fst (run small_env (preprocess (with_input_dims "1,3") tt [])
                   one_input)))
  = [].
Proof.
  refine (proj1 (preprocess_stops_on_a_bad_spec
                   small_env (with_input_dims "1,3") tt []
                   (OutOfRange "Argument passed to at() was not in the map.")
                   one_input _ _ _ eq_refl eq_refl)).
Defined.


Lemma main_compiles_the_declared_shape_witness :
  parse_input_shapes (with_input_dims "1,3,32,32") = Ok [[1; 3; 32; 32]%Z].
Proof.
  refine (proj1 (proj2
            (main_compiles_the_declared_shape
               small_env (with_input_dims "1,3,32,32") one_input _ _ _
               "forward" tt [1; 3; 32; 32]%Z eq_refl _))).
  cbn. left. reflexivity.
Defined.

Lemma main_outcome_when_calls_return_witness :
  fst (fst (run small_env (main (Some (with_input_dims "1,3"))) one_input))
  = if string_empty (FLAGS_model (with_input_dims "1,3"))
    then Err (EnforceError UsageMessage)
    else match create_compile_spec (with_input_dims "1,3") with
         | inl e => Err e
         | inr _ => Ok 0%Z
         end.
Proof.
  refine (main_outcome_when_calls_return
            small_env (with_input_dims "1,3") one_input _ _ _
            eq_refl eq_refl).
Defined.

Lemma main_exit_codes_witness :
  (Some (with_input_dims "1,3") = None /\ 0%Z = 1%Z
   /\ models_loaded
        (snd (fst (run small_env (main (Some (with_input_dims "1,3")))
                       one_input))) = []
   /\ passes_run
        (snd (fst (run small_env (main (Some (with_input_dims "1,3")))
                       one_input))) = []
   /\ artifacts
        (snd (fst (run small_env (main (Some (with_input_dims "1,3")))
                       one_input))) = [])
  \/ (exists fl asm_name model_name,
        Some (with_input_dims "1,3") = Some fl /\ 0%Z = 0%Z
        /\ output_asm_name fl = Ok asm_name
        /\ output_model_name fl = Ok model_name
        /\ forallb returned
             (snd (fst (run small_env (main (Some (with_input_dims "1,3")))
                            one_input))) = true
        /\ passes_run
             (snd (fst (run small_env (main (Some (with_input_dims "1,3")))
                            one_input))) = main_passes
        /\ artifacts
             (snd (fst (run small_env (main (Some (with_input_dims "1,3")))
                            one_input)))
           = [AsmFile asm_name; ModelFile model_name]).
Proof.
  refine (main_exit_codes small_env (Some (with_input_dims "1,3"))
                          one_input _ 0%Z _ eq_refl).
Defined.


Lemma main_loads_the_flag_model_witness :
  models_loaded
    (snd (fst (run small_env (main (Some (with_input_dims "1,3")))
                   one_input)))
  = ["model.pt"].
Proof.
  refine (proj1 (proj2 (main_loads_the_flag_model
                          small_env (with_input_dims "1,3") one_input _ _ _
                          eq_refl) _)).
  discriminate.
Defined.

Lemma explicit_output_names_witness :
  output_model_name (mkFlags "model.pt" "resnet" "1.0" "1,3" "a.ll" "out.ptl")
  = Ok "out.ptl"
  /\ output_asm_name (mkFlags "model.pt" "resnet" "1.0" "1,3" "a.ll" "out.ptl")
     = Ok "a.ll".
Proof.
  destruct (explicit_output_names
              small_env
              (mkFlags "model.pt" "resnet" "1.0" "1,3" "a.ll" "out.ptl"))
    as [Hmodel Hasm].
  split; [apply Hmodel | apply Hasm]; discriminate.
Defined.

Lemma main_packages_the_frozen_module_witness :
  firstn 4 (snd (fst (run small_env (main (Some (with_input_dims "1,3")))
                          one_input)))
  = [Returned (JitLoad "model.pt") tt;
     Returned (ModuleEval tt) tt;
     Returned (ModuleClone tt) tt;
     Returned (FreezeModule tt) tt].
Proof.
  destruct (main_packages_the_frozen_module
              small_env (with_input_dims "1,3") one_input
              (snd (run small_env (main (Some (with_input_dims "1,3")))
                        one_input))
              (fst (fst (run small_env (main (Some (with_input_dims "1,3")))
                             one_input)))
              (snd (fst (run small_env (main (Some (with_input_dims "1,3")))
                             one_input)))
              eq_refl)
    as [Hpackaged _].
  destruct (Hpackaged
              "nnc" tt
              [("forward", IVGenericDict [("sizes", IVIntList [1; 3]%Z)])]
              (IVTuple [IVTuple [IVString "resnet:1.0:forward:VERTOKEN";
                                 IVIntList [1; 3]%Z]]))
    as (_ & _ & _ & loaded & clone & evaled & Hfirst & _).
  { cbn. left. reflexivity. }
  destruct loaded, clone, evaled. exact Hfirst.
Defined.

Lemma main_passes_work_on_one_graph_witness :
  exists method_graph frozen,
    In (frozen, "forward", method_graph)
       (method_graphs
          (snd (fst (run small_env (main (Some (with_input_dims "1,3")))
                         one_input))))
    /\ In (method_graph, tt)
          (self_removed
             (snd (fst (run small_env (main (Some (with_input_dims "1,3")))
                            one_input)))).
Proof.
  refine (main_passes_work_on_one_graph
            small_env (with_input_dims "1,3") one_input _ _ _
            PeepholePass tt eq_refl _).
  cbn. right. right. right. right. right. right. left. reflexivity.
Defined.

(** A packager that raises: the assembly file stays behind and no model
    is saved. *)
Example assembly_is_left_when_packaging_fails :
  fst (fst (run failing_packager_env (main (Some (with_input_dims "1,3")))
                one_input))
  = Err (ExternalError "library call")
  /\ artifacts
       (snd (fst (run failing_packager_env
                      (main (Some (with_input_dims "1,3"))) one_input)))
     = [AsmFile "model.compiled.ll"].
Proof. split; reflexivity. Qed.
